(** * Mincer's [Template] base class (lib/mincer/template.js)

    The file embeds template.js over a small model of the JavaScript
    object heap: property descriptors, prototype chains, assignment,
    [Object.defineProperty], [new], method calls, exceptions, and the
    CommonJS loader with its cache.  Results are [option]s: [None]
    stands for a run that leaves the modelled fragment (a prototype
    chain that does not end, a conversion that would run user code). *)

From stdpp Require Import base option gmap strings.

Local Open Scope string_scope.

(** ** Values

    Heap locations are positive numbers.  IEEE numbers and symbols are
    left out: template.js applies no operation to them. *)

Abbreviation loc := positive (only parsing).

Inductive val :=
  | VUndefined
  | VNull
  | VBool (b : bool)
  | VString (s : string)
  | VObject (l : loc).

Global Instance val_eq_dec : EqDecision val.
Proof. solve_decision. Defined.

(** What a [throw] carries.  [Error m] is [new Error(m)]; [TypeError]
    is the runtime's own complaint (its message is the engine's
    business); [Raised v] is any other thrown value. *)
Inductive thrown :=
  | Error (message : string)
  | TypeError
  | Raised (v : val).

Inductive completion (A : Type) :=
  | Return (a : A)
  | Throw (e : thrown).
Arguments Return {A} a.
Arguments Throw {A} e.

(** [ToBoolean]: the values that [||] treats as false. *)
Definition to_boolean (v : val) : bool :=
  match v with
  | VUndefined | VNull => false
  | VBool b => b
  | VString s => if decide (s = "") then false else true
  | VObject _ => true
  end.

(** [ToString] on primitives.  On an object it would call the object's
    own [toString]: outside the fragment. *)
Definition to_string (v : val) : option string :=
  match v with
  | VUndefined => Some "undefined"
  | VNull => Some "null"
  | VBool true => Some "true"
  | VBool false => Some "false"
  | VString s => Some s
  | VObject _ => None
  end.

(** The n-th actual argument; a missing one reads [undefined]. *)
Definition arg (n : nat) (args : list val) : val := nth n args VUndefined.

(** Substring test used to say that a message names something. *)
Definition contains (s sub : string) : Prop :=
  ∃ pre post, s = pre +:+ sub +:+ post.

(** The same test by computation. *)
Fixpoint starts_with (sub s : string) : bool :=
  match sub, s with
  | EmptyString, _ => true
  | String a sub', String b s' => bool_decide (a = b) && starts_with sub' s'
  | String _ _, EmptyString => false
  end.

Fixpoint occurs (sub s : string) : bool :=
  starts_with sub s
  || match s with
     | EmptyString => false
     | String _ s' => occurs sub s'
     end.

(** ** Properties and descriptors *)

Record property := Property {
  p_value : val;
  p_writable : bool;
  p_enumerable : bool;
  p_configurable : bool
}.

(** The argument of [Object.defineProperty]: every field may be absent. *)
Record descriptor := Descriptor {
  d_value : option val;
  d_writable : option bool;
  d_enumerable : option bool;
  d_configurable : option bool
}.

Definition no_options : descriptor := Descriptor None None None None.

(** A property created from a descriptor: absent fields default to
    [undefined] and [false]. *)
Definition property_of (d : descriptor) : property :=
  Property (default VUndefined (d_value d)) (default false (d_writable d))
           (default false (d_enumerable d)) (default false (d_configurable d)).

(** An existing property after a permitted redefinition: present fields
    replace, absent ones stay. *)
Definition redefine (p : property) (d : descriptor) : property :=
  Property (default (p_value p) (d_value d)) (default (p_writable p) (d_writable d))
           (default (p_enumerable p) (d_enumerable d))
           (default (p_configurable p) (d_configurable d)).

(** Whether [Object.defineProperty] accepts [d] over the existing data
    property [p] (ES5 8.12.9, data descriptors). *)
Definition admits (p : property) (d : descriptor) : bool :=
  p_configurable p
  || (bool_decide (d_configurable d ≠ Some true)
      && bool_decide (d_enumerable d = None ∨ d_enumerable d = Some (p_enumerable p))
      && (p_writable p
          || (bool_decide (d_writable d ≠ Some true)
              && bool_decide (d_value d = None ∨ d_value d = Some (p_value p))))).

(** ** Code outside template.js

    Engines, callers and the initialisation code of loaded modules are
    programs over the primitive heap operations; each continuation
    receives the outcome of the operation, so a program may test it,
    go on, or throw. *)

Inductive prog :=
  | PDone (c : completion val)
  | PGet (base : val) (k : string) (cont : completion val → prog)
  | PPut (l : loc) (k : string) (v : val) (cont : bool → prog)
  | PDefine (l : loc) (k : string) (d : descriptor) (cont : bool → prog)
  | PDelete (l : loc) (k : string) (cont : bool → prog)
  | PPreventExtensions (l : loc) (next : prog)
  | PAlloc (proto : option loc) (cont : loc → prog).

(** ** Objects and the heap *)

Inductive code :=
  | CTemplate        (* function Template(file, data) *)
  | CEvaluate        (* Template.prototype.evaluate *)
  | CRequire         (* Template.prototype.require *)
  | CApplyTemplate   (* function MyProcessor() { Template.apply(this, arguments); } *)
  | CNative          (* a built-in of the runtime *)
  | CForeign (body : val → list val → prog).

Record object := Object {
  o_proto : option loc;
  o_extensible : bool;
  o_props : gmap string property;
  o_call : option code
}.

Abbreviation heap := (gmap positive object) (only parsing).

Definition with_props (o : object) (ps : gmap string property) : object :=
  Object (o_proto o) (o_extensible o) ps (o_call o).

Definition fresh_loc (h : heap) : loc := fresh (dom h).

Definition plain_object (proto : option loc) : object :=
  Object proto true ∅ None.

(** Allocation of an empty ordinary object. *)
Definition alloc (proto : option loc) (h : heap) : loc * heap :=
  let l := fresh_loc h in (l, <[l := plain_object proto]> h).

(** Property lookup along the prototype chain.  The runtime keeps the
    chains acyclic, so a chain is no longer than the heap has objects. *)
Fixpoint lookup_chain (fuel : nat) (h : heap) (l : loc) (k : string)
  : option (option property) :=
  match fuel with
  | O => None
  | S n =>
    match h !! l with
    | None => None
    | Some o =>
      match o_props o !! k with
      | Some p => Some (Some p)
      | None =>
        match o_proto o with
        | None => Some None
        | Some parent => lookup_chain n h parent k
        end
      end
    end
  end.

Definition get_property (h : heap) (l : loc) (k : string) : option (option property) :=
  lookup_chain (S (size h)) h l k.

(** Where the runtime keeps [Object.prototype] and
    [Function.prototype]. *)
Definition object_prototype : loc := 1%positive.
Definition function_prototype : loc := 2%positive.

(** The key under which [Object.prototype] exposes the prototype link
    of an object, through an accessor instead of a data property. *)
Definition magic_key : string := "__proto__".

(** Whether [target] is on the prototype chain of [l], [l] included. *)
Fixpoint on_chain (fuel : nat) (h : heap) (l target : loc) : option bool :=
  match fuel with
  | O => None
  | S n =>
    match h !! l with
    | None => None
    | Some o =>
      if decide (l = target) then Some true
      else
        match o_proto o with
        | None => Some false
        | Some parent => on_chain n h parent target
        end
    end
  end.

(** [l[magic_key]].  A data property of that name, on the object or
    inherited, is read as any other.  Otherwise the accessor of
    [Object.prototype] answers, for the objects that inherit from it,
    with the prototype of the receiver ([null] when it has none); the
    other objects read [undefined]. *)
Definition get_magic (h : heap) (l : loc) : option (completion val) :=
  found ← get_property h l magic_key;
  match found with
  | Some p => Some (Return (p_value p))
  | None =>
    o ← h !! l;
    inherited ← on_chain (S (size h)) h l object_prototype;
    Some (Return (if inherited : bool
                  then match o_proto o with Some parent => VObject parent | None => VNull end
                  else VUndefined))
  end.

(** [base[k]].  Reading from [undefined] or [null] throws; reading from
    a primitive string or boolean boxes it: outside the fragment. *)
Definition get (h : heap) (base : val) (k : string) : option (completion val) :=
  match base with
  | VObject l =>
    if decide (k = magic_key) then get_magic h l
    else p ← get_property h l k; Some (Return (default VUndefined (p_value <$> p)))
  | VUndefined | VNull => Some (Throw TypeError)
  | VBool _ | VString _ => None
  end.
Global Arguments get : simpl never.

(** The accessor itself is no data property: redefining or deleting
    it is outside the fragment. *)
Definition is_accessor (l : loc) (k : string) : bool :=
  bool_decide (l = object_prototype ∧ k = magic_key).

(** [l[k] = v] (ES5 8.12.5, data properties).  The flag tells whether
    the assignment took effect; strict code throws when it did not.
    Assigning [magic_key] sets the prototype link: outside the
    fragment. *)
Definition put (h : heap) (l : loc) (k : string) (v : val) : option (bool * heap) :=
  if decide (k = magic_key) then None
  else
    o ← h !! l;
    found ← get_property h l k;
    if bool_decide (p_writable <$> found = Some false) then Some (false, h)
    else
      match o_props o !! k with
      | Some p =>
        Some (true, <[l := with_props o (<[k := Property v (p_writable p) (p_enumerable p)
                                                        (p_configurable p)]> (o_props o))]> h)
      | None =>
        if o_extensible o
        then Some (true, <[l := with_props o (<[k := Property v true true true]> (o_props o))]> h)
        else Some (false, h)
      end.

(** [Object.defineProperty(l, k, d)]; the flag is false where the
    runtime throws a TypeError. *)
Definition define_own_property (h : heap) (l : loc) (k : string) (d : descriptor)
  : option (bool * heap) :=
  if is_accessor l k then None
  else
    o ← h !! l;
    match o_props o !! k with
    | None =>
      if o_extensible o
      then Some (true, <[l := with_props o (<[k := property_of d]> (o_props o))]> h)
      else Some (false, h)
    | Some p =>
      if admits p d
      then Some (true, <[l := with_props o (<[k := redefine p d]> (o_props o))]> h)
      else Some (false, h)
    end.

(** [delete l[k]]. *)
Definition delete_property (h : heap) (l : loc) (k : string) : option (bool * heap) :=
  if is_accessor l k then None
  else
    o ← h !! l;
    match o_props o !! k with
    | None => Some (true, h)
    | Some p =>
      if p_configurable p
      then Some (true, <[l := with_props o (delete k (o_props o))]> h)
      else Some (false, h)
    end.

(** [Object.preventExtensions(l)]. *)
Definition prevent_extensions (h : heap) (l : loc) : option heap :=
  o ← h !! l;
  Some (<[l := Object (o_proto o) false (o_props o) (o_call o)]> h).

(** Running foreign code on a heap. *)
Fixpoint run_prog (p : prog) (h : heap) : option (completion val * heap) :=
  match p with
  | PDone c => Some (c, h)
  | PGet base k cont => c ← get h base k; run_prog (cont c) h
  | PPut l k v cont => '(ok, h') ← put h l k v; run_prog (cont ok) h'
  | PDefine l k d cont => '(ok, h') ← define_own_property h l k d; run_prog (cont ok) h'
  | PDelete l k cont => '(ok, h') ← delete_property h l k; run_prog (cont ok) h'
  | PPreventExtensions l next => h' ← prevent_extensions h l; run_prog next h'
  | PAlloc proto cont => let '(l, h') := alloc proto h in run_prog (cont l) h'
  end.

(** ** The world and the monad of statements

    Besides the heap, a run sees the loader's cache ([require.cache])
    and the modules installed on the machine: each is the program that
    the module's file runs when it is first loaded, returning its
    exports or throwing. *)

Record world := World {
  w_heap : gmap positive object;
  w_cache : gmap string val;
  w_modules : string → option prog
}.

Definition with_heap (w : world) (h : heap) : world :=
  World h (w_cache w) (w_modules w).

Definition M (A : Type) : Type := world → option (completion A * world).

Definition ret {A} (a : A) : M A := λ w, Some (Return a, w).
Definition throw {A} (e : thrown) : M A := λ w, Some (Throw e, w).
Definition stuck {A} : M A := λ _, None.

Definition bind {A B} (m : M A) (f : A → M B) : M B := λ w,
  match m w with
  | None => None
  | Some (Return a, w') => f a w'
  | Some (Throw e, w') => Some (Throw e, w')
  end.

Global Instance M_ret : MRet M := @ret.
Global Instance M_bind : MBind M := λ A B f m, bind m f.

(** [try { body } catch (err) { handler }] *)
Definition try_catch {A} (body : M A) (handler : thrown → M A) : M A := λ w,
  match body w with
  | None => None
  | Some (Return a, w') => Some (Return a, w')
  | Some (Throw err, w') => handler err w'
  end.

(** Heap reads and writes as statements. *)
Definition get_m (base : val) (k : string) : M val := λ w,
  c ← get (w_heap w) base k; Some (c, w).

Definition to_string_m (v : val) : M string := λ w,
  s ← to_string v; Some (Return s, w).

(** Strict code turns a refused operation into a TypeError. *)
Definition strictly (ok : bool) : completion unit :=
  if ok then Return () else Throw TypeError.

(** [base[k] = v] in strict code; a primitive base cannot take a
    property (ES5 8.7.2). *)
Definition put_m (base : val) (k : string) (v : val) : M unit := λ w,
  match base with
  | VObject l =>
    '(ok, h') ← put (w_heap w) l k v;
    Some (strictly ok, with_heap w h')
  | _ => Some (Throw TypeError, w)
  end.

Definition alloc_m (o : object) : M loc := λ w,
  let l := fresh_loc (w_heap w) in
  Some (Return l, with_heap w (<[l := o]> (w_heap w))).

Definition foreign_m (p : prog) : M val := λ w,
  '(c, h') ← run_prog p (w_heap w); Some (c, with_heap w h').

(** ** The ambient loader: Node's [require]

    A cached module is returned as it is.  Otherwise the module's file
    is run: its exports are cached and returned, or its exception
    propagates and nothing is cached.  A name with no module behind it
    raises the loader's own error. *)
Definition native_require (name : val) : M val := λ w,
  match name with
  | VString n =>
    match w_cache w !! n with
    | Some m => Some (Return m, w)
    | None =>
      match w_modules w n with
      | None => Some (Throw (Error ("Cannot find module '" +:+ n +:+ "'")), w)
      | Some body =>
        '(c, h') ← run_prog body (w_heap w);
        match c with
        | Return m => Some (Return m, World h' (<[n := m]> (w_cache w)) (w_modules w))
        | Throw e => Some (Throw e, with_heap w h')
        end
      end
    end
  | _ => Some (Throw TypeError, w)
  end.

(** [Object.defineProperty(obj, k, d)] *)
Definition define_property_m (obj : val) (k : string) (d : descriptor) : M unit := λ w,
  match obj with
  | VObject l =>
    '(ok, h') ← define_own_property (w_heap w) l k d;
    Some (strictly ok, with_heap w h')
  | _ => Some (Throw TypeError, w)
  end.

(** ** template.js *)

(** Modelled from the spec: [prop] of ./common is not under src/.  The
    spec has [Template(file, data)] store [file] as a read-only
    attribute and [data] as a mutable one, with no validation; so
    [prop(obj, name, value, options)] is
    [Object.defineProperty(obj, name, options + {value})], whose absent
    flags default to false. *)
Definition prop (obj : val) (name : string) (value : val) (options : descriptor) : M unit :=
  define_property_m obj name
    (Descriptor (Some value) (d_writable options) (d_enumerable options)
                (d_configurable options)).

(** [function Template(file, data)] (lines 40-52). *)
Definition Template (this : val) (args : list val) : M val :=
  let file := arg 0 args in
  let data := arg 1 args in
  prop this "data" data (Descriptor None (Some true) None None) ;;
  prop this "file" file no_options ;;
  mret VUndefined.

(** [Template.prototype.evaluate] (lines 73-76). *)
Definition evaluate (this : val) (args : list val) : M val :=
  ctor ← get_m this "constructor";
  name ← get_m ctor "name";
  s ← to_string_m (if to_boolean name then name else VString "");
  throw (Error (s +:+ "#evaluate() is not implemented.")).

(** [Template.prototype.require] (lines 102-109). *)
Definition require (this : val) (args : list val) : M val :=
  let name := arg 0 args in
  try_catch (native_require name) (λ err,
    s ← to_string_m name;
    file ← get_m this "file";
    f ← to_string_m file;
    throw (Error ("Cannot find module `" +:+ s +:+ "` required for file '" +:+ f +:+ "'"))).

(** Calling a function object's code. *)
Definition run_code (c : code) (this : val) (args : list val) : M val :=
  match c with
  | CTemplate => Template this args
  | CEvaluate => evaluate this args
  | CRequire => require this args
  | CApplyTemplate => Template this args ;; mret VUndefined
  | CNative => stuck
  | CForeign body => foreign_m (body this args)
  end.

Definition code_of (h : heap) (f : val) : option code :=
  match f with
  | VObject l => o ← h !! l; o_call o
  | _ => None
  end.

(** [f.call(this, ...args)] *)
Definition call (f : val) (this : val) (args : list val) : M val := λ w,
  match code_of (w_heap w) f with
  | Some c => run_code c this args w
  | None => Some (Throw TypeError, w)
  end.

(** [this[k](...args)] *)
Definition call_method (this : val) (k : string) (args : list val) : M val :=
  f ← get_m this k; call f this args.

(** ** The runtime around template.js *)

Definition builtin (name : string) : object :=
  Object (Some function_prototype) true
         {[ "name" := Property (VString name) false false false ]} (Some CNative).

Definition hidden (v : val) : property := Property v true false true.

(** The part of the initial heap that the development reads:
    [Object.prototype] with some of its methods, [Function.prototype]
    and [Object]. *)
Definition runtime_heap : gmap positive object :=
  {[ 1%positive := Object None true
         {[ "constructor" := hidden (VObject 3%positive);
            "toString" := hidden (VObject 4%positive);
            "valueOf" := hidden (VObject 5%positive);
            "hasOwnProperty" := hidden (VObject 6%positive) ]} None;
     2%positive := Object (Some 1%positive) true
         {[ "name" := Property (VString "") false false false ]} (Some CNative);
     3%positive := with_props (builtin "Object")
         {[ "name" := Property (VString "Object") false false false;
            "prototype" := Property (VObject 1%positive) false false false ]};
     4%positive := builtin "toString";
     5%positive := builtin "valueOf";
     6%positive := builtin "hasOwnProperty" ]}.

Definition runtime (modules : string → option prog) : world :=
  World runtime_heap ∅ modules.

(** Evaluating [function name(...) {...}]: the function object and its
    fresh [prototype] object, which points back through [constructor]
    (ES5 13.2). *)
Definition function_expression (name : string) (c : code) : M val :=
  f ← alloc_m (Object (Some function_prototype) true
                 {[ "name" := Property (VString name) false false false ]} (Some c));
  p ← alloc_m (Object (Some object_prototype) true
                 {[ "constructor" := hidden (VObject f) ]} None);
  define_property_m (VObject f) "prototype"
    (Descriptor (Some (VObject p)) (Some true) (Some false) (Some false));;
  mret (VObject f).

(** [new f(...args)] *)
Definition construct (f : val) (args : list val) : M val := λ w,
  match code_of (w_heap w) f with
  | None => Some (Throw TypeError, w)
  | Some c =>
    (p ← get_m f "prototype";
     l ← alloc_m (plain_object
                    (Some (match p with VObject pl => pl | _ => object_prototype end)));
     r ← run_code c (VObject l) args;
     mret (match r with VObject _ => r | _ => VObject l end)) w
  end.

(** Node's [util.inherits(ctor, superCtor)], which the example at the
    head of template.js uses to derive an engine. *)
Definition inherits (ctor superCtor : val) : M unit :=
  put_m ctor "super_" superCtor;;
  sp ← get_m superCtor "prototype";
  match sp with
  | VObject spl =>
    p ← alloc_m (Object (Some spl) true {[ "constructor" := hidden ctor ]} None);
    put_m ctor "prototype" (VObject p)
  | VNull =>
    p ← alloc_m (Object None true {[ "constructor" := hidden ctor ]} None);
    put_m ctor "prototype" (VObject p)
  | _ => throw TypeError
  end.

(** The body of template.js, run once when the module is loaded; its
    value is [module.exports].  (Line 27 only fetches [prop].) *)
Definition template_js : M val :=
  T ← function_expression "Template" CTemplate;
  proto ← get_m T "prototype";
  ev ← function_expression "" CEvaluate;
  put_m proto "evaluate" ev;;
  libs ← alloc_m (plain_object (Some object_prototype));
  put_m T "libs" (VObject libs);;
  proto ← get_m T "prototype";
  rq ← function_expression "" CRequire;
  put_m proto "require" rq;;
  mret T.

(** The engine of the example at the head of template.js, without an
    [evaluate] of its own: [function name() { Template.apply(this,
    arguments); }] made to inherit from [Template]. *)
Definition engine (name : string) (T : val) : M val :=
  C ← function_expression name CApplyTemplate;
  inherits C T;;
  mret C.

(** An engine that does supply its own [evaluate], returning
    [this.data] as it is. *)
Definition overriding_engine (name : string) (T : val) : M val :=
  C ← engine name T;
  proto ← get_m C "prototype";
  ev ← function_expression "" (CForeign (λ this _, PGet this "data" PDone));
  put_m proto "evaluate" ev;;
  mret C.

(** ** What the claims speak about *)

(** The prototype chain of [l], from [l] to the object with no
    prototype. *)
Inductive chain (h : gmap positive object) : positive → list positive → Prop :=
  | chain_end l o :
      h !! l = Some o → o_proto o = None → chain h l [l]
  | chain_step l o parent ls :
      h !! l = Some o → o_proto o = Some parent → chain h parent ls →
      chain h l (l :: ls).

(** The property stored on the object itself. *)
Definition own_property (h : heap) (l : loc) (k : string) : option property :=
  o ← h !! l; o_props o !! k.

(** [f] is a function object running [c] whose [prototype] is [p]. *)
Definition is_constructor (h : heap) (f : loc) (c : code) (p : loc) : Prop :=
  ∃ o q, h !! f = Some o ∧ o_call o = Some c
         ∧ o_props o !! "prototype" = Some q ∧ p_value q = VObject p.

(** What [Template] leaves on a fresh object. *)
Definition instance (proto : loc) (file data : val) : object :=
  Object (Some proto) true
         (<["file" := Property file false false false]>
            (<["data" := Property data true false false]> ∅)) None.

(** The world once template.js has been loaded; [Template] and
    [Template.libs] are then the objects at [Template_fn] and [libs]. *)
Definition loaded (modules : string → option prog) : world :=
  match template_js (runtime modules) with
  | Some (_, w) => w
  | None => runtime modules
  end.

Definition Template_fn : loc := 7%positive.
Definition libs : loc := 11%positive.

(** [l]'s [evaluate] is the one of the base: no type between the
    object and [Template.prototype] supplies its own. *)
Definition inherits_base_evaluate (h : heap) (l : loc) : Prop :=
  ∃ f, get h (VObject l) "evaluate" = Some (Return f) ∧ code_of h f = Some CEvaluate.

(** The type that made [l], as the object itself tells it. *)
Definition constructed_by (h : heap) (l : loc) (ctor : val) : Prop :=
  get h (VObject l) "constructor" = Some (Return ctor).

(** A property that can be neither written nor reconfigured. *)
Definition frozen (h : heap) (l : loc) (k : string) (p : property) : Prop :=
  own_property h l k = Some p ∧ p_writable p = false ∧ p_configurable p = false.

(** The message of the Error that [require] throws (lines 106-107). *)
Definition missing_message (name file : string) : string :=
  "Cannot find module `" +:+ name +:+ "` required for file '" +:+ file +:+ "'".


(** ** Concrete runs *)

Definition no_modules : string → option prog := λ _, None.

(** Two modules on the machine: one that loads, one whose own code
    throws. *)
Definition installed : string → option prog := λ n,
  if decide (n = "ejs")
  then Some (PAlloc (Some object_prototype) (λ l, PDone (Return (VObject l))))
  else if decide (n = "broken")
       then Some (PDone (Throw (Raised (VString "boom"))))
       else None.

(** The world after [m] ran in [w]. *)
Definition after {A} (m : M A) (w : world) : world :=
  match m w with
  | Some (_, w') => w'
  | None => w
  end.

(** An engine named [name] and one instance of it. *)
Definition engine_world (name : string) : world :=
  after (C ← engine name (VObject Template_fn);
         construct C [VString "a.tpl"; VString "hello"]) (loaded installed).

(** The engine's constructor, and the instance made from it. *)
Definition engine_fn : loc := 14%positive.
Definition engine_instance : loc := 17%positive.

(** An engine derived without [util.inherits]:
    [MyProcessor.prototype = Object.create(Template.prototype)], which
    leaves the new prototype without a [constructor] of its own. *)
Definition careless_engine (name : string) (T : val) : M val :=
  C ← function_expression name CApplyTemplate;
  sp ← get_m T "prototype";
  match sp with
  | VObject spl =>
    p ← alloc_m (plain_object (Some spl));
    put_m C "prototype" (VObject p);;
    mret C
  | _ => throw TypeError
  end.

(** Such an engine, named "MyProcessor", and one instance of it. *)
Definition careless_types : world :=
  after (careless_engine "MyProcessor" (VObject Template_fn)) (loaded no_modules).
Definition careless_world : world :=
  after (construct (VObject engine_fn) [VString "a.tpl"; VString "hello"]) careless_types.



(** An engine as in the example at the head of template.js, with its
    own [evaluate] (lines 16-19) running [body]. *)
Definition engine_with_evaluate (name : string) (body : val → list val → prog) (T : val)
  : M val :=
  C ← engine name T;
  proto ← get_m C "prototype";
  ev ← function_expression "" (CForeign body);
  put_m proto "evaluate" ev;;
  mret C.

(** A world with one more object, made by [Object.create(null)]: it
    has no prototype, hence no [constructor]. *)
Definition bare_world : world := after (alloc_m (plain_object None)) (loaded installed).
Definition bare_object : loc := 14%positive.

(** * Properties *)

(** ** Stepping through statements *)

Lemma run_bind {A B} (m : M A) (f : A → M B) w a w' :
  m w = Some (Return a, w') → (m ≫= f) w = f a w'.
Proof. intros H. unfold mbind, M_bind, bind. by rewrite H. Qed.

Lemma run_bind_inv {A B} (m : M A) (f : A → M B) w c w' :
  (m ≫= f) w = Some (c, w') →
  (∃ a w1, m w = Some (Return a, w1) ∧ f a w1 = Some (c, w'))
  ∨ (∃ e, m w = Some (Throw e, w') ∧ c = Throw e).
Proof.
  unfold mbind, M_bind, bind. destruct (m w) as [[[a|e] w1]|] eqn:E; intros H.
  - left. eauto.
  - right. injection H as <- <-. eauto.
  - discriminate.
Qed.

(** A statement that only reads leaves the world as it is: [reads H
    lem] follows the first statement of the sequence in [H] with
    [lem], which says so for that statement. *)
Ltac reads H lem :=
  let a := fresh "a" in
  let w1 := fresh "w" in
  let e := fresh "e" in
  let H1 := fresh "H" in
  apply run_bind_inv in H as [(a & w1 & H1 & H)|(e & H1 & _)];
  [apply lem in H1 as ->|by apply lem in H1].

(** ** The module once loaded *)

Lemma loaded_exports modules :
  template_js (runtime modules) = Some (Return (VObject Template_fn), loaded modules).
Proof. by vm_compute. Qed.

Lemma loaded_Template modules :
  is_constructor (w_heap (loaded modules)) Template_fn CTemplate 8%positive.
Proof. eexists _, _. split_and!; by vm_compute. Qed.

Lemma loaded_libs modules :
  get (w_heap (loaded modules)) (VObject Template_fn) "libs" = Some (Return (VObject libs)).
Proof. by vm_compute. Qed.

(** ** The prototype chain *)

Lemma lookup_chain_own n (h : gmap positive object) l o k p :
  h !! l = Some o → o_props o !! k = Some p →
  lookup_chain (S n) h l k = Some (Some p).
Proof. intros Hl Hk. simpl. by rewrite Hl, Hk. Qed.

Lemma lookup_chain_inherited n (h : gmap positive object) l o parent k :
  h !! l = Some o → o_props o !! k = None → o_proto o = Some parent →
  lookup_chain (S n) h l k = lookup_chain n h parent k.
Proof. intros Hl Hk Hp. simpl. by rewrite Hl, Hk, Hp. Qed.

Lemma lookup_chain_mono n (h : gmap positive object) l k r :
  lookup_chain n h l k = Some r → lookup_chain (S n) h l k = Some r.
Proof.
  revert l. induction n as [|n IH]; intros l; [discriminate|].
  intros H. simpl in H. change (lookup_chain (S (S n)) h l k) with
    (match h !! l with
     | None => None
     | Some o => match o_props o !! k with
                 | Some p => Some (Some p)
                 | None => match o_proto o with
                           | None => Some None
                           | Some parent => lookup_chain (S n) h parent k
                           end
                 end
     end).
  destruct (h !! l) as [o|]; [|done].
  destruct (o_props o !! k); [done|].
  destruct (o_proto o); [|done]. by apply IH.
Qed.

Lemma lookup_chain_alloc n (h : gmap positive object) l' o' l k r :
  h !! l' = None →
  lookup_chain n h l k = Some r → lookup_chain n (<[l' := o']> h) l k = Some r.
Proof.
  intros Hfresh. revert l. induction n as [|n IH]; intros l; [discriminate|].
  simpl. destruct (h !! l) as [o|] eqn:Hl; [|done].
  assert (l' ≠ l) by congruence.
  rewrite lookup_insert_ne, Hl by done.
  destruct (o_props o !! k); [done|].
  destruct (o_proto o); [|done]. apply IH.
Qed.

Lemma get_property_own (h : gmap positive object) l k p :
  own_property h l k = Some p → get_property h l k = Some (Some p).
Proof.
  unfold own_property, get_property. destruct (h !! l) as [o|] eqn:Hl; [|done].
  simpl. intros Hk. by rewrite Hl, Hk.
Qed.

Lemma get_own (h : gmap positive object) l k p :
  k ≠ magic_key →
  own_property h l k = Some p → get h (VObject l) k = Some (Return (p_value p)).
Proof.
  intros Hk H. unfold get. rewrite decide_False by done.
  by rewrite (get_property_own _ _ _ _ H).
Qed.

Lemma get_property_alloc (h : gmap positive object) l' o' l k r :
  h !! l' = None →
  get_property h l k = Some r → get_property (<[l' := o']> h) l k = Some r.
Proof.
  intros Hfresh H. unfold get_property in *.
  rewrite map_size_insert_None by done.
  apply lookup_chain_mono. by apply lookup_chain_alloc.
Qed.

Lemma get_alloc (h : gmap positive object) l' o' base k c :
  k ≠ magic_key → h !! l' = None →
  get h base k = Some c → get (<[l' := o']> h) base k = Some c.
Proof.
  intros Hk Hfresh. unfold get. destruct base; try done. rewrite !decide_False by done.
  destruct (get_property h l k) as [r|] eqn:E; [|done].
  by rewrite (get_property_alloc _ _ o' _ _ _ Hfresh E).
Qed.

Lemma fresh_loc_None (h : gmap positive object) : h !! fresh_loc h = None.
Proof. apply not_elem_of_dom. unfold fresh_loc. apply is_fresh. Qed.

(** *** The fuel is enough

    A chain that ends cannot pass twice through one object, so it is no
    longer than the heap has objects, and the lookup along it answers. *)

Lemma chain_functional h l ls1 ls2 : chain h l ls1 → chain h l ls2 → ls1 = ls2.
Proof.
  intros H1. revert ls2. induction H1 as [l o Hl Hp|l o parent ls Hl Hp Hc IH];
    intros ls2 H2; inversion H2; simplify_eq; [done|]. f_equal. by apply IH.
Qed.

Lemma chain_from_member h l ls l' :
  chain h l ls → l' ∈ ls → ∃ ls', chain h l' ls' ∧ (length ls' ≤ length ls)%nat.
Proof.
  intros Hc. induction Hc as [l o Hl Hp|l o parent ls Hl Hp Hc IH]; intros Hin.
  - apply list_elem_of_singleton in Hin as ->. exists [l]. split; [by eapply chain_end|done].
  - apply elem_of_cons in Hin as [->|Hin].
    + exists (l :: ls). split; [by eapply chain_step|done].
    + destruct (IH Hin) as (ls' & Hc' & Hlen). exists ls'. split; [done|]. simpl. lia.
Qed.

Lemma chain_NoDup h l ls : chain h l ls → NoDup ls.
Proof.
  intros Hc. induction Hc as [l o Hl Hp|l o parent ls Hl Hp Hc IH].
  - apply NoDup_singleton.
  - apply NoDup_cons. split; [|done]. intros Hin.
    destruct (chain_from_member _ _ _ _ Hc Hin) as (ls' & Hc' & Hlen).
    assert (ls' = l :: ls) as -> by (eapply chain_functional; [done|by eapply chain_step]).
    simpl in Hlen. lia.
Qed.

Lemma chain_allocated h l ls l' : chain h l ls → l' ∈ ls → is_Some (h !! l').
Proof.
  intros Hc. induction Hc as [l o Hl Hp|l o parent ls Hl Hp Hc IH]; intros Hin.
  - apply list_elem_of_singleton in Hin as ->. eauto.
  - apply elem_of_cons in Hin as [->|Hin]; eauto.
Qed.

Lemma chain_length (h : gmap positive object) l ls : chain h l ls → (length ls ≤ size h)%nat.
Proof.
  intros Hc. rewrite <- (size_dom (D := gset positive)).
  rewrite <- (size_list_to_set (C := gset positive) ls) by by eapply chain_NoDup.
  apply subseteq_size. intros l' Hin. apply elem_of_list_to_set in Hin.
  apply elem_of_dom. by eapply chain_allocated.
Qed.

Lemma lookup_chain_enough h l ls k n :
  chain h l ls → (length ls ≤ n)%nat → is_Some (lookup_chain n h l k).
Proof.
  intros Hc. revert n. induction Hc as [l o Hl Hp|l o parent ls Hl Hp Hc IH];
    intros [|n] Hlen; simpl in Hlen; try lia; simpl; rewrite Hl.
  - destruct (o_props o !! k); [eauto|]. rewrite Hp. eauto.
  - destruct (o_props o !! k); [eauto|]. rewrite Hp. apply IH. lia.
Qed.

(** Every object whose chain ends has each of its keys looked up. *)
Lemma get_property_total (h : gmap positive object) l ls k :
  chain h l ls → is_Some (get_property h l k).
Proof.
  intros Hc. apply (lookup_chain_enough _ _ ls); [done|].
  pose proof (chain_length _ _ _ Hc). lia.
Qed.

(** ** Construction *)

Lemma is_accessor_other l k : k ≠ magic_key → is_accessor l k = false.
Proof. intros Hk. apply bool_decide_eq_false_2. by intros [_ ?]. Qed.

Lemma define_new_property w l o k d :
  k ≠ magic_key →
  w_heap w !! l = Some o → o_props o !! k = None → o_extensible o = true →
  define_property_m (VObject l) k d w
  = Some (Return (),
          with_heap w (<[l := with_props o (<[k := property_of d]> (o_props o))]> (w_heap w))).
Proof.
  intros Hmagic Hl Hk Hext. unfold define_property_m, define_own_property.
  rewrite is_accessor_other by done. rewrite Hl. simpl. by rewrite Hk, Hext.
Qed.

Lemma Template_on_fresh w l proto args :
  w_heap w !! l = Some (plain_object (Some proto)) →
  Template (VObject l) args w
  = Some (Return VUndefined,
          with_heap w (<[l := instance proto (arg 0 args) (arg 1 args)]> (w_heap w))).
Proof.
  intros Hl. unfold Template, prop.
  erewrite run_bind; last by apply (define_new_property _ _ _ "data" _ ltac:(done) Hl).
  erewrite run_bind; last first.
  { apply define_new_property; simpl; [done|apply lookup_insert_eq|..]; done. }
  simpl. unfold mret, M_ret, ret, with_heap. simpl.
  by rewrite insert_insert_eq.
Qed.

Lemma get_m_own w l k p :
  k ≠ magic_key →
  own_property (w_heap w) l k = Some p →
  get_m (VObject l) k w = Some (Return (p_value p), w).
Proof. intros Hk H. unfold get_m. by rewrite (get_own _ _ _ _ Hk H). Qed.

Lemma is_constructor_code h f c p :
  is_constructor h f c p → code_of h (VObject f) = Some c.
Proof. intros (o & q & Hf & Hc & _). simpl. by rewrite Hf. Qed.

Lemma is_constructor_prototype h f c p :
  is_constructor h f c p →
  ∃ q, own_property h f "prototype" = Some q ∧ p_value q = VObject p.
Proof. intros (o & q & Hf & _ & Hq & Hp). exists q. unfold own_property. by rewrite Hf. Qed.

(** [new] on the base class, or on an engine whose constructor hands
    over to [Template], allocates one object and fills in its two
    attributes; nothing else changes. *)
Lemma construct_instance w f c p args :
  is_constructor (w_heap w) f c p → c = CTemplate ∨ c = CApplyTemplate →
  construct (VObject f) args w
  = Some (Return (VObject (fresh_loc (w_heap w))),
          with_heap w (<[fresh_loc (w_heap w) := instance p (arg 0 args) (arg 1 args)]>
                         (w_heap w))).
Proof.
  intros Hf Hc. unfold construct. rewrite (is_constructor_code _ _ _ _ Hf).
  destruct (is_constructor_prototype _ _ _ _ Hf) as (q & Hq & Hp).
  erewrite run_bind; last by apply get_m_own. rewrite Hp.
  erewrite run_bind; last by reflexivity.
  set (l := fresh_loc (w_heap w)).
  set (w1 := with_heap w (<[l := plain_object (Some p)]> (w_heap w))).
  assert (Hl : w_heap w1 !! l = Some (plain_object (Some p))) by apply lookup_insert_eq.
  assert (Ht := Template_on_fresh w1 l p args Hl).
  assert (Hrun : run_code c (VObject l) args w1
                 = Some (Return VUndefined,
                         with_heap w (<[l := instance p (arg 0 args) (arg 1 args)]> (w_heap w)))).
  { destruct Hc as [-> | ->]; simpl.
    - rewrite Ht. unfold w1, with_heap. simpl. by rewrite insert_insert_eq.
    - erewrite run_bind; last exact Ht.
      unfold w1, mret, M_ret, ret, with_heap. simpl. by rewrite insert_insert_eq. }
  erewrite run_bind; last exact Hrun. done.
Qed.

Lemma own_property_insert (h : gmap positive object) l o k :
  own_property (<[l := o]> h) l k = o_props o !! k.
Proof. unfold own_property. by rewrite lookup_insert_eq. Qed.

Lemma own_property_insert_ne (h : gmap positive object) l l' o k :
  l ≠ l' → own_property (<[l := o]> h) l' k = own_property h l' k.
Proof. intros. unfold own_property. by rewrite lookup_insert_ne. Qed.

Lemma instance_file proto file data :
  o_props (instance proto file data) !! "file" = Some (Property file false false false).
Proof. apply lookup_insert_eq. Qed.

Lemma instance_data proto file data :
  o_props (instance proto file data) !! "data" = Some (Property data true false false).
Proof. simpl. rewrite lookup_insert_ne by done. apply lookup_insert_eq. Qed.

(** C2. For every [file] and [data], [new Template(file, data)] returns
    an object that stores [file] as a property that cannot be written
    and [data] as one that can, and both read back as the values given:
    no validation, no default. *)
Theorem construct_reads_back w T P file data :
  is_constructor (w_heap w) T CTemplate P →
  ∃ l w',
    construct (VObject T) [file; data] w = Some (Return (VObject l), w')
    ∧ own_property (w_heap w') l "file" = Some (Property file false false false)
    ∧ own_property (w_heap w') l "data" = Some (Property data true false false)
    ∧ get (w_heap w') (VObject l) "file" = Some (Return file)
    ∧ get (w_heap w') (VObject l) "data" = Some (Return data).
Proof.
  intros HT. eexists _, _. split; [apply (construct_instance _ _ _ _ _ HT); by left|].
  simpl. rewrite !own_property_insert, instance_file, instance_data.
  split_and!; try done.
  - eapply (get_own _ _ _ (Property file false false false)); [done|].
    by rewrite own_property_insert, instance_file.
  - eapply (get_own _ _ _ (Property data true false false)); [done|].
    by rewrite own_property_insert, instance_data.
Qed.

(** ** evaluate *)

Lemma evaluate_throws w this args ctor name s :
  get (w_heap w) this "constructor" = Some (Return ctor) →
  get (w_heap w) ctor "name" = Some (Return name) →
  to_string (if to_boolean name then name else VString "") = Some s →
  evaluate this args w = Some (Throw (Error (s +:+ "#evaluate() is not implemented.")), w).
Proof.
  intros Hc Hn Hs. unfold evaluate.
  erewrite run_bind; last by (unfold get_m; rewrite Hc).
  erewrite run_bind; last by (unfold get_m; rewrite Hn).
  erewrite run_bind; last by (unfold to_string_m; rewrite Hs).
  done.
Qed.

Lemma call_method_base_evaluate w l args :
  inherits_base_evaluate (w_heap w) l →
  call_method (VObject l) "evaluate" args w = evaluate (VObject l) args w.
Proof.
  intros (f & Hf & Hcode). unfold call_method.
  erewrite run_bind; last by (unfold get_m; rewrite Hf).
  unfold call. by rewrite Hcode.
Qed.

Lemma to_boolean_string n :
  to_string (if to_boolean (VString n) then VString n else VString "") = Some n.
Proof. simpl. by destruct (decide (n = "")) as [->|]. Qed.

Lemma call_evaluate_named w l ctor n args :
  inherits_base_evaluate (w_heap w) l →
  constructed_by (w_heap w) l (VObject ctor) →
  get (w_heap w) (VObject ctor) "name" = Some (Return (VString n)) →
  call_method (VObject l) "evaluate" args w
  = Some (Throw (Error (n +:+ "#evaluate() is not implemented.")), w).
Proof.
  intros Hev Hc Hn. rewrite call_method_base_evaluate by done.
  eapply evaluate_throws; eauto using to_boolean_string.
Qed.

(** C10. When the name of the instance's constructor is falsy (an
    anonymous function has the empty name), the message of the base
    [evaluate] is exactly "#evaluate() is not implemented.". *)
Theorem evaluate_anonymous w l ctor name args :
  inherits_base_evaluate (w_heap w) l →
  constructed_by (w_heap w) l ctor →
  get (w_heap w) ctor "name" = Some (Return name) →
  to_boolean name = false →
  call_method (VObject l) "evaluate" args w
  = Some (Throw (Error "#evaluate() is not implemented."), w).
Proof.
  intros Hev Hc Hn Hfalsy.
  rewrite call_method_base_evaluate by done.
  eapply (evaluate_throws _ _ _ _ _ ""); eauto. by rewrite Hfalsy.
Qed.

(** An attribute that the instance does not carry itself is read from
    the prototype its constructor gave it. *)
Lemma get_instance_inherited (h : gmap positive object) l p file data k c :
  k ≠ magic_key → h !! l = None → k ≠ "file" → k ≠ "data" →
  get h (VObject p) k = Some c →
  get (<[l := instance p file data]> h) (VObject l) k = Some c.
Proof.
  intros Hk Hl Hfile Hdata Hp. unfold get in *. rewrite !decide_False in * by done.
  destruct (get_property h p k) as [r|] eqn:E; [|done].
  unfold get_property in *. rewrite map_size_insert_None by done.
  rewrite (lookup_chain_inherited _ _ l (instance p file data) p).
  - by rewrite (lookup_chain_alloc _ _ _ _ _ _ _ Hl E).
  - apply lookup_insert_eq.
  - simpl. by rewrite !lookup_insert_ne, lookup_empty.
  - done.
Qed.

Lemma code_of_alloc (h : gmap positive object) l o f c :
  h !! l = None → code_of h f = Some c → code_of (<[l := o]> h) f = Some c.
Proof.
  intros Hl. destruct f as [| | | |l']; simpl; try done.
  destruct (h !! l') as [o'|] eqn:E; [|done].
  assert (l ≠ l') by congruence. by rewrite lookup_insert_ne, E.
Qed.

(** What [new] builds from a type that sets up its prototype the usual
    way ([prototype.constructor] pointing back, [evaluate] inherited)
    is such an instance. *)
Lemma construct_not_implemented w f c p n args args' :
  is_constructor (w_heap w) f c p → c = CTemplate ∨ c = CApplyTemplate →
  get (w_heap w) (VObject p) "constructor" = Some (Return (VObject f)) →
  get (w_heap w) (VObject f) "name" = Some (Return (VString n)) →
  (∃ e, get (w_heap w) (VObject p) "evaluate" = Some (Return e)
        ∧ code_of (w_heap w) e = Some CEvaluate) →
  ∃ l w1,
    construct (VObject f) args w = Some (Return (VObject l), w1)
    ∧ call_method (VObject l) "evaluate" args' w1
      = Some (Throw (Error (n +:+ "#evaluate() is not implemented.")), w1).
Proof.
  intros Hf Hc Hctor Hname (e & He & Hcode).
  eexists _, _. split; [by apply (construct_instance _ _ _ _ _ Hf)|].
  pose proof (fresh_loc_None (w_heap w)) as Hfresh.
  apply call_evaluate_named with (ctor := f); simpl.
  - exists e. split; [by apply get_instance_inherited|by apply code_of_alloc].
  - by apply get_instance_inherited.
  - by apply (get_alloc _ _ _ (VObject f)).
Qed.

(** C1 as amended. For a type whose constructor is [Template] or hands
    over to it and whose prototype inherits the base [evaluate], every
    instance that [new] makes answers [evaluate], whatever the
    arguments, by throwing an Error, and returns no value.  The message
    is the name of the type that the prototype names through
    [constructor], followed by "#evaluate() is not implemented.": the
    constructing type itself when its prototype points back to it, the
    inherited one when it does not. *)
Theorem evaluate_names_prototype_constructor w f c p g n args args' :
  is_constructor (w_heap w) f c p → c = CTemplate ∨ c = CApplyTemplate →
  (∃ e, get (w_heap w) (VObject p) "evaluate" = Some (Return e)
        ∧ code_of (w_heap w) e = Some CEvaluate) →
  get (w_heap w) (VObject p) "constructor" = Some (Return (VObject g)) →
  get (w_heap w) (VObject g) "name" = Some (Return (VString n)) →
  ∃ l w1,
    construct (VObject f) args w = Some (Return (VObject l), w1)
    ∧ call_method (VObject l) "evaluate" args' w1
      = Some (Throw (Error (n +:+ "#evaluate() is not implemented.")), w1)
    ∧ ∀ v w', call_method (VObject l) "evaluate" args' w1 ≠ Some (Return v, w').
Proof.
  intros Hf Hc (e & He & Hcode) Hctor Hname.
  eexists _, _. split; [by apply (construct_instance _ _ _ _ _ Hf)|].
  pose proof (fresh_loc_None (w_heap w)) as Hfresh.
  match goal with |- ?call = _ ∧ _ =>
    assert (H : call = Some (Throw (Error (n +:+ "#evaluate() is not implemented.")),
                             with_heap w (<[fresh_loc (w_heap w) :=
                                instance p (arg 0 args) (arg 1 args)]> (w_heap w))))
  end.
  { apply call_evaluate_named with (ctor := g); simpl.
    - exists e. split; [by apply get_instance_inherited|by apply code_of_alloc].
    - by apply get_instance_inherited.
    - by apply (get_alloc _ _ _ (VObject g)). }
  split; [exact H|]. intros v w'. by rewrite H.
Qed.

(** ** A property that can be neither written nor reconfigured stays

    Whatever code runs on the heap, it reaches the heap through the
    primitive operations, and each of them leaves such a property as
    it is. *)

Lemma own_property_update (h : gmap positive object) l o ps l' k' :
  h !! l = Some o →
  own_property (<[l := with_props o ps]> h) l' k'
  = if decide (l = l') then ps !! k' else own_property h l' k'.
Proof.
  intros Hl. unfold own_property. rewrite lookup_insert. by case_decide.
Qed.

Lemma put_frozen h l k p l' k' v ok h' :
  frozen h l k p → put h l' k' v = Some (ok, h') → frozen h' l k p.
Proof.
  intros (Hown & Hw & Hc) Hput. split_and!; [|done..].
  unfold put in Hput. case_decide; [done|].
  destruct (h !! l') as [o|] eqn:Hl'; [|done]. simpl in Hput.
  destruct (get_property h l' k') as [found|] eqn:Hfound; [|done]. simpl in Hput.
  case_bool_decide as Hro; [by simplify_eq|].
  destruct (decide (l' = l ∧ k' = k)) as [[-> ->]|Hne].
  { rewrite (get_property_own _ _ _ _ Hown) in Hfound. simplify_eq.
    simpl in Hro. by rewrite Hw in Hro. }
  assert (∀ q, own_property (<[l' := with_props o (<[k' := q]> (o_props o))]> h) l k = Some p)
    as Hkeep.
  { intros q. rewrite (own_property_update _ _ _ _ _ _ Hl'). case_decide as Hll; [|done].
    subst l'. rewrite lookup_insert_ne by naive_solver.
    unfold own_property in Hown. by rewrite Hl' in Hown. }
  destruct (o_props o !! k'); [by simplify_eq|].
  destruct (o_extensible o); by simplify_eq.
Qed.

Lemma redefine_frozen p d :
  p_writable p = false → p_configurable p = false → admits p d = true → redefine p d = p.
Proof.
  destruct p as [v w e c], d as [dv dw de dc]. simpl. intros -> ->.
  unfold admits, redefine. simpl.
  rewrite !andb_true_iff, !bool_decide_eq_true.
  intros [[Hc He] [Hw Hv]].
  assert (default v dv = v) as -> by (destruct Hv; by simplify_eq/=).
  assert (default e de = e) as -> by (destruct He; by simplify_eq/=).
  assert (default false dw = false) as -> by (by destruct dw as [[]|]).
  assert (default false dc = false) as -> by (by destruct dc as [[]|]).
  done.
Qed.

Lemma define_frozen h l k p l' k' d ok h' :
  frozen h l k p → define_own_property h l' k' d = Some (ok, h') → frozen h' l k p.
Proof.
  intros (Hown & Hw & Hc) Hdef. split_and!; [|done..].
  unfold define_own_property in Hdef. destruct (is_accessor l' k'); [done|].
  destruct (h !! l') as [o|] eqn:Hl'; [|done]. simpl in Hdef.
  destruct (decide (l' = l ∧ k' = k)) as [[-> ->]|Hne].
  { unfold own_property in Hown. rewrite Hl' in Hown. simpl in Hown.
    rewrite Hown in Hdef. destruct (admits p d) eqn:Hadm; simplify_eq.
    - rewrite (redefine_frozen _ _ Hw Hc Hadm).
      unfold own_property. rewrite lookup_insert_eq. simpl. apply lookup_insert_eq.
    - unfold own_property. by rewrite Hl'. }
  assert (∀ q, own_property (<[l' := with_props o (<[k' := q]> (o_props o))]> h) l k = Some p)
    as Hkeep.
  { intros q. rewrite (own_property_update _ _ _ _ _ _ Hl'). case_decide as Hll; [|done].
    subst l'. rewrite lookup_insert_ne by naive_solver.
    unfold own_property in Hown. by rewrite Hl' in Hown. }
  destruct (o_props o !! k') as [q|].
  - destruct (admits q d); by simplify_eq.
  - destruct (o_extensible o); by simplify_eq.
Qed.

Lemma delete_frozen h l k p l' k' ok h' :
  frozen h l k p → delete_property h l' k' = Some (ok, h') → frozen h' l k p.
Proof.
  intros (Hown & Hw & Hc) Hdel. split_and!; [|done..].
  unfold delete_property in Hdel. destruct (is_accessor l' k'); [done|].
  destruct (h !! l') as [o|] eqn:Hl'; [|done]. simpl in Hdel.
  destruct (o_props o !! k') as [q|] eqn:Hq; [|by simplify_eq].
  destruct (p_configurable q) eqn:Hcq; [|by simplify_eq].
  simplify_eq. rewrite (own_property_update _ _ _ _ _ _ Hl'). case_decide as Hll; [|done].
  subst l'. unfold own_property in Hown. rewrite Hl' in Hown. simpl in Hown.
  rewrite lookup_delete_ne; [done|]. intros ->. congruence.
Qed.

Lemma prevent_extensions_frozen h l k p l' h' :
  frozen h l k p → prevent_extensions h l' = Some h' → frozen h' l k p.
Proof.
  intros (Hown & Hw & Hc) Hpe. split_and!; [|done..].
  unfold prevent_extensions in Hpe.
  destruct (h !! l') as [o|] eqn:Hl'; [|done]. simplify_eq/=.
  unfold own_property in *. rewrite lookup_insert. case_decide; [|done].
  subst l'. by rewrite Hl' in Hown.
Qed.

Lemma alloc_frozen (h : gmap positive object) l k p o :
  frozen h l k p → frozen (<[fresh_loc h := o]> h) l k p.
Proof.
  intros (Hown & Hw & Hc). split_and!; [|done..].
  rewrite own_property_insert_ne; [done|]. intros Heq.
  unfold own_property in Hown. by rewrite <- Heq, fresh_loc_None in Hown.
Qed.

(** No program can change it. *)
Lemma run_prog_frozen prg : ∀ h l k p c h',
  frozen h l k p → run_prog prg h = Some (c, h') → frozen h' l k p.
Proof.
  induction prg as [c0|base k0 cont IH|l0 k0 v cont IH|l0 k0 d cont IH|l0 k0 cont IH
                   |l0 next IH|proto cont IH];
    intros h l k p c h' Hfr Hrun; simpl in Hrun.
  - by simplify_eq.
  - destruct (get h base k0) as [c1|]; [|done]. by eapply IH.
  - destruct (put h l0 k0 v) as [[ok h1]|] eqn:E; [|done].
    eapply IH; [|exact Hrun]. by eapply put_frozen.
  - destruct (define_own_property h l0 k0 d) as [[ok h1]|] eqn:E; [|done].
    eapply IH; [|exact Hrun]. by eapply define_frozen.
  - destruct (delete_property h l0 k0) as [[ok h1]|] eqn:E; [|done].
    eapply IH; [|exact Hrun]. by eapply delete_frozen.
  - destruct (prevent_extensions h l0) as [h1|] eqn:E; [|done].
    eapply IH; [|exact Hrun]. by eapply prevent_extensions_frozen.
  - eapply IH; [|exact Hrun]. by apply alloc_frozen.
Qed.

(** ** The loader and require *)

Lemma append_assoc (a b c : string) : (a +:+ b) +:+ c = a +:+ b +:+ c.
Proof.
  induction a as [|x a IH]; [done|].
  change (String x ((a +:+ b) +:+ c) = String x (a +:+ b +:+ c)). by f_equal.
Qed.

Lemma missing_message_name name file : contains (missing_message name file) name.
Proof. by exists "Cannot find module `", ("` required for file '" +:+ file +:+ "'"). Qed.

Lemma missing_message_file name file : contains (missing_message name file) file.
Proof.
  exists ("Cannot find module `" +:+ name +:+ "` required for file '"), "'".
  unfold missing_message. by rewrite !append_assoc.
Qed.

Lemma native_require_hit w n m :
  w_cache w !! n = Some m → native_require (VString n) w = Some (Return m, w).
Proof. intros H. unfold native_require. by rewrite H. Qed.

Lemma native_require_absent w n :
  w_cache w !! n = None → w_modules w n = None →
  native_require (VString n) w = Some (Throw (Error ("Cannot find module '" +:+ n +:+ "'")), w).
Proof. intros Hc Hm. unfold native_require. by rewrite Hc, Hm. Qed.

(** A module that the loader returned is in its cache from then on. *)
Lemma native_require_cached w n m w' :
  native_require (VString n) w = Some (Return m, w') → w_cache w' !! n = Some m.
Proof.
  unfold native_require. destruct (w_cache w !! n) as [m0|] eqn:Hc.
  { intros; by simplify_eq. }
  destruct (w_modules w n) as [body|]; [|done].
  destruct (run_prog body (w_heap w)) as [[[m1|e] h1]|]; simpl; intros; simplify_eq.
  apply lookup_insert_eq.
Qed.

(** The loader reaches the heap only by running a module's code. *)
Lemma native_require_frozen w name c w' l k p :
  frozen (w_heap w) l k p → native_require name w = Some (c, w') → frozen (w_heap w') l k p.
Proof.
  intros Hfr. unfold native_require. destruct name as [| | |n|]; try (intros; by simplify_eq).
  destruct (w_cache w !! n); [intros; by simplify_eq|].
  destruct (w_modules w n) as [body|]; [|intros; by simplify_eq].
  destruct (run_prog body (w_heap w)) as [[c1 h1]|] eqn:E; [|done]. simpl.
  pose proof (run_prog_frozen _ _ _ _ _ _ _ Hfr E).
  destruct c1; intros; by simplify_eq.
Qed.

Lemma get_m_world base k w c w' : get_m base k w = Some (c, w') → w' = w.
Proof. unfold get_m. destruct (get _ _ _); intros; by simplify_eq/=. Qed.

Lemma to_string_m_world v w c w' : to_string_m v w = Some (c, w') → w' = w.
Proof. unfold to_string_m. destruct (to_string _); intros; by simplify_eq/=. Qed.

(** [evaluate] only reads. *)
Lemma evaluate_world this args w c w' : evaluate this args w = Some (c, w') → w' = w.
Proof.
  unfold evaluate. intros H.
  reads H get_m_world. reads H get_m_world. reads H to_string_m_world.
  unfold throw in H. by simplify_eq.
Qed.

(** The world after [require] is the world the loader left. *)
Lemma require_world this args w c w' :
  require this args w = Some (c, w') →
  ∃ c0, native_require (arg 0 args) w = Some (c0, w').
Proof.
  unfold require, try_catch.
  destruct (native_require (arg 0 args) w) as [[[m|err] w1]|]; [| |done].
  { intros; simplify_eq. eauto. }
  intros H. exists (Throw err). do 2 f_equal.
  reads H to_string_m_world. reads H get_m_world. reads H to_string_m_world.
  unfold throw in H. by simplify_eq.
Qed.

(** What [require] does once the loader has thrown. *)
Lemma require_rescue w this n err w' file f :
  native_require (VString n) w = Some (Throw err, w') →
  get (w_heap w') this "file" = Some (Return file) →
  to_string file = Some f →
  require this [VString n] w = Some (Throw (Error (missing_message n f)), w').
Proof.
  intros Hload Hfile Hf. unfold require, try_catch.
  change (arg 0 [VString n]) with (VString n). rewrite Hload.
  erewrite run_bind; last by reflexivity.
  erewrite run_bind; last by (unfold get_m; rewrite Hfile).
  erewrite run_bind; last by (unfold to_string_m; rewrite Hf).
  done.
Qed.

(** C3. When the loader has no module for [name], [require(name)]
    throws an Error whose message holds both the name and the
    instance's [file]. *)
Theorem require_missing w this n file f :
  w_cache w !! n = None → w_modules w n = None →
  get (w_heap w) this "file" = Some (Return file) →
  to_string file = Some f →
  require this [VString n] w = Some (Throw (Error (missing_message n f)), w)
  ∧ contains (missing_message n f) n
  ∧ contains (missing_message n f) f.
Proof.
  intros Hc Hm Hfile Hf. split_and!.
  - eapply require_rescue; eauto using native_require_absent.
  - apply missing_message_name.
  - apply missing_message_file.
Qed.

(** C9. Whatever the loader throws for [name], and for whatever reason
    (a module whose own code fails as much as a module that is not
    there), [require] throws the missing-module Error in its place; the
    original does not show in it. *)
Theorem require_replaces_error w l n err w' file f :
  frozen (w_heap w) l "file" (Property file false false false) →
  to_string file = Some f →
  native_require (VString n) w = Some (Throw err, w') →
  require (VObject l) [VString n] w
  = Some (Throw (Error ("Cannot find module `" +:+ n +:+ "` required for file '" +:+ f +:+ "'")),
          w').
Proof.
  intros Hfr Hf Hload.
  destruct (native_require_frozen _ _ _ _ _ _ _ Hfr Hload) as (Hown & _).
  eapply require_rescue; eauto. by apply (get_own _ _ "file" _ ltac:(done) Hown).
Qed.

(** C5. When the loader resolves [name] to a module, [require(name)]
    returns that very reference, and asking again returns it again. *)
Theorem require_idempotent w this n m w' :
  native_require (VString n) w = Some (Return m, w') →
  require this [VString n] w = Some (Return m, w')
  ∧ require this [VString n] w' = Some (Return m, w').
Proof.
  intros Hload. unfold require, try_catch.
  change (arg 0 [VString n]) with (VString n). rewrite Hload.
  by rewrite (native_require_hit _ _ _ (native_require_cached _ _ _ _ Hload)).
Qed.

(** ** The attributes of an instance *)

Lemma put_refused (h : gmap positive object) l k p v :
  k ≠ magic_key →
  own_property h l k = Some p → p_writable p = false → put h l k v = Some (false, h).
Proof.
  intros Hk Hown Hw. unfold put. rewrite decide_False by done.
  rewrite (get_property_own _ _ _ _ Hown).
  unfold own_property in Hown. destruct (h !! l) as [o|]; [|done]. simpl.
  by rewrite Hw, bool_decide_eq_true_2.
Qed.

Lemma put_written (h : gmap positive object) l o k p v :
  k ≠ magic_key →
  h !! l = Some o → o_props o !! k = Some p → p_writable p = true →
  put h l k v
  = Some (true, <[l := with_props o (<[k := Property v true (p_enumerable p)
                                                   (p_configurable p)]> (o_props o))]> h).
Proof.
  intros Hmagic Hl Hk Hw. unfold put. rewrite decide_False by done.
  rewrite (get_property_own h l k p) by (unfold own_property; by rewrite Hl).
  rewrite Hl. simpl. rewrite Hw, bool_decide_eq_false_2 by done. by rewrite Hk, Hw.
Qed.

(** C4. The [file] of an instance stays what the constructor stored:
    an assignment to it is refused (strict code gets a TypeError) and
    leaves the heap as it was, and neither [evaluate], nor [require],
    nor any code that a [require] sets off changes it. *)
Theorem file_never_changes w l file :
  own_property (w_heap w) l "file" = Some (Property file false false false) →
  (∀ v, put (w_heap w) l "file" v = Some (false, w_heap w))
  ∧ (∀ v, put_m (VObject l) "file" v w = Some (Throw TypeError, w))
  ∧ (∀ this args c w', evaluate this args w = Some (c, w') →
       own_property (w_heap w') l "file" = Some (Property file false false false))
  ∧ (∀ this args c w', require this args w = Some (c, w') →
       own_property (w_heap w') l "file" = Some (Property file false false false))
  ∧ (∀ prg c h', run_prog prg (w_heap w) = Some (c, h') →
       own_property h' l "file" = Some (Property file false false false)).
Proof.
  intros Hown.
  assert (frozen (w_heap w) l "file" (Property file false false false)) as Hfr by done.
  split_and!.
  - intros v. by apply (put_refused _ _ "file" _ _ ltac:(done) Hown).
  - intros v. unfold put_m. rewrite (put_refused _ _ "file" _ v ltac:(done) Hown) by done.
    simpl. by destruct w.
  - intros this args c w' H. by apply evaluate_world in H as ->.
  - intros this args c w' H. apply require_world in H as (c0 & H).
    by destruct (native_require_frozen _ _ _ _ _ _ _ Hfr H).
  - intros prg c h' H. by destruct (run_prog_frozen _ _ _ _ _ _ _ Hfr H).
Qed.

(** ** The registry and the base contract *)



(** C8. Two instances made one after the other are two objects:
    assigning to the [data] of either leaves the [data] and the [file]
    of the other as they were. *)
Theorem instances_do_not_interfere w T P file1 data1 file2 data2 v :
  is_constructor (w_heap w) T CTemplate P →
  ∃ l1 w1 l2 w2,
    construct (VObject T) [file1; data1] w = Some (Return (VObject l1), w1)
    ∧ construct (VObject T) [file2; data2] w1 = Some (Return (VObject l2), w2)
    ∧ l1 ≠ l2
    ∧ (∃ w3, put_m (VObject l1) "data" v w2 = Some (Return (), w3)
             ∧ get (w_heap w3) (VObject l1) "data" = Some (Return v)
             ∧ get (w_heap w3) (VObject l2) "data" = Some (Return data2)
             ∧ get (w_heap w3) (VObject l2) "file" = Some (Return file2))
    ∧ (∃ w3, put_m (VObject l2) "data" v w2 = Some (Return (), w3)
             ∧ get (w_heap w3) (VObject l2) "data" = Some (Return v)
             ∧ get (w_heap w3) (VObject l1) "data" = Some (Return data1)
             ∧ get (w_heap w3) (VObject l1) "file" = Some (Return file1)).
Proof.
  intros HT.
  set (l1 := fresh_loc (w_heap w)).
  set (w1 := with_heap w (<[l1 := instance P file1 data1]> (w_heap w))).
  assert (HT1 : is_constructor (w_heap w1) T CTemplate P).
  { destruct HT as (o & q & Ho & ?). exists o, q. split; [|done]. simpl.
    rewrite lookup_insert_ne; [done|]. intros Heq.
    pose proof (fresh_loc_None (w_heap w)) as Hf. fold l1 in Hf. congruence. }
  set (l2 := fresh_loc (w_heap w1)).
  set (w2 := with_heap w1 (<[l2 := instance P file2 data2]> (w_heap w1))).
  assert (Hne : l1 ≠ l2).
  { intros Heq. pose proof (fresh_loc_None (w_heap w1)) as Hf.
    fold l2 in Hf. rewrite <- Heq in Hf. simpl in Hf. by rewrite lookup_insert_eq in Hf. }
  assert (H1 : w_heap w2 !! l1 = Some (instance P file1 data1)).
  { simpl. rewrite lookup_insert_ne by done. apply lookup_insert_eq. }
  assert (H2 : w_heap w2 !! l2 = Some (instance P file2 data2)) by apply lookup_insert_eq.
  exists l1, w1, l2, w2. split_and!.
  - apply (construct_instance _ _ _ _ [file1; data1] HT). by left.
  - apply (construct_instance _ _ _ _ [file2; data2] HT1). by left.
  - done.
  - eexists. unfold put_m.
    rewrite (put_written _ _ _ "data" _ v ltac:(done) H1 (instance_data _ _ _)) by done.
    split; [done|]. cbn [w_heap with_heap]. split_and!.
    + apply (get_own _ _ _ (Property v true false false)); [done|].
      rewrite own_property_insert. apply lookup_insert_eq.
    + apply (get_own _ _ _ (Property data2 true false false)); [done|].
      rewrite own_property_insert_ne by done. unfold own_property. rewrite H2.
      apply instance_data.
    + apply (get_own _ _ _ (Property file2 false false false)); [done|].
      rewrite own_property_insert_ne by done. unfold own_property. rewrite H2.
      apply instance_file.
  - eexists. unfold put_m.
    rewrite (put_written _ _ _ "data" _ v ltac:(done) H2 (instance_data _ _ _)) by done.
    split; [done|]. cbn [w_heap with_heap]. split_and!.
    + apply (get_own _ _ _ (Property v true false false)); [done|].
      rewrite own_property_insert. apply lookup_insert_eq.
    + apply (get_own _ _ _ (Property data1 true false false)); [done|].
      rewrite own_property_insert_ne by done. unfold own_property. rewrite H1.
      apply instance_data.
    + apply (get_own _ _ _ (Property file1 false false false)); [done|].
      rewrite own_property_insert_ne by done. unfold own_property. rewrite H1.
      apply instance_file.
Qed.

(** ** The registry *)

Lemma get_property_two_levels (h : gmap positive object) l o top k :
  h !! l = Some o → o_proto o = Some object_prototype →
  h !! object_prototype = Some top → o_proto top = None →
  get_property h l k
  = Some (match o_props o !! k with Some p => Some p | None => o_props top !! k end).
Proof.
  intros Hl Hp Htop Hend. unfold get_property.
  destruct (size h) as [|n] eqn:Hsize.
  { apply map_size_empty_inv in Hsize. by rewrite Hsize, lookup_empty in Hl. }
  destruct (o_props o !! k) as [p|] eqn:Hk; [by apply (lookup_chain_own _ _ _ o)|].
  rewrite (lookup_chain_inherited _ _ _ _ _ _ Hl Hk Hp). simpl. rewrite Htop, Hend.
  by destruct (o_props top !! k).
Qed.

Lemma put_then_get (h : gmap positive object) l k v h' :
  put h l k v = Some (true, h') → get h' (VObject l) k = Some (Return v).
Proof.
  unfold put. case_decide as Hk; [done|].
  destruct (h !! l) as [o|] eqn:Hl; [|done]. simpl.
  destruct (get_property h l k) as [found|]; [|done]. simpl.
  case_bool_decide; [done|].
  destruct (o_props o !! k) as [p|].
  - intros; simplify_eq.
    apply (get_own _ _ _ (Property v (p_writable p) (p_enumerable p) (p_configurable p)));
      [done|].
    rewrite own_property_insert. apply lookup_insert_eq.
  - destruct (o_extensible o); [|done]. intros; simplify_eq.
    apply (get_own _ _ _ (Property v true true true)); [done|].
    rewrite own_property_insert. apply lookup_insert_eq.
Qed.

Lemma get_magic_two_levels (h : gmap positive object) l o top :
  h !! l = Some o → o_proto o = Some object_prototype →
  h !! object_prototype = Some top → o_proto top = None →
  get h (VObject l) magic_key
  = Some (Return (match o_props o !! magic_key with
                  | Some p => p_value p
                  | None => match o_props top !! magic_key with
                            | Some p => p_value p
                            | None => VObject object_prototype
                            end
                  end)).
Proof.
  intros Hl Hp Htop Hend. unfold get, get_magic. rewrite decide_True by done.
  rewrite (get_property_two_levels _ _ _ _ magic_key Hl Hp Htop Hend).
  destruct (o_props o !! magic_key) as [q|]; [done|].
  destruct (o_props top !! magic_key) as [q|]; [done|]. simpl. rewrite Hl. simpl.
  assert (l ≠ object_prototype) as Hne by (intros ->; congruence).
  destruct (size h) as [|n] eqn:Hsize.
  { apply map_size_empty_inv in Hsize. by rewrite Hsize, lookup_empty in Hl. }
  rewrite decide_False, Hp by done. cbn [on_chain].
  rewrite Htop, decide_True by done. done.
Qed.

(** C6 as amended. The registry starts with no entry.  It is an
    ordinary object under [Object.prototype], so a key that is not set
    in it reads [undefined] only when [Object.prototype] has no
    property of that name: [magic_key], with no data property so
    named, reads [Object.prototype] itself.  Reading any key returns a
    value and never throws.  For a key other than [magic_key], an
    assignment that takes effect is read back, and it takes effect
    whenever the registry is extensible and no read-only property
    stands under that key. *)
Theorem registry_lookup (h : gmap positive object) L reg top :
  h !! L = Some reg → o_proto reg = Some object_prototype →
  h !! object_prototype = Some top → o_proto top = None →
  (∀ modules, o_props <$> (w_heap (loaded modules) !! libs) = Some ∅)
  ∧ (∀ k, k ≠ magic_key → o_props reg !! k = None → o_props top !! k = None →
       get h (VObject L) k = Some (Return VUndefined))
  ∧ (o_props reg !! magic_key = None → o_props top !! magic_key = None →
       get h (VObject L) magic_key = Some (Return (VObject object_prototype)))
  ∧ (∀ k, ∃ v, get h (VObject L) k = Some (Return v))
  ∧ (∀ k v h', k ≠ magic_key → put h L k v = Some (true, h') →
       get h' (VObject L) k = Some (Return v))
  ∧ (∀ k v, k ≠ magic_key → o_extensible reg = true →
       (∀ p, o_props reg !! k = Some p → p_writable p = true) →
       (∀ p, o_props top !! k = Some p → p_writable p = true) →
       ∃ h', put h L k v = Some (true, h')).
Proof.
  intros HL Hp Htop Hend. split_and!.
  - intros modules. by vm_compute.
  - intros k Hmagic Hk Htk. unfold get. rewrite decide_False by done.
    rewrite (get_property_two_levels _ _ _ _ k HL Hp Htop Hend), Hk, Htk. done.
  - intros Hk Htk. by rewrite (get_magic_two_levels _ _ _ _ HL Hp Htop Hend), Hk, Htk.
  - intros k. destruct (decide (k = magic_key)) as [->|Hmagic].
    + rewrite (get_magic_two_levels _ _ _ _ HL Hp Htop Hend). eauto.
    + unfold get. rewrite decide_False by done.
      rewrite (get_property_two_levels _ _ _ _ k HL Hp Htop Hend). simpl. eauto.
  - intros k v h' _. apply put_then_get.
  - intros k v Hmagic Hext Hreg Htopw. unfold put. rewrite decide_False by done.
    rewrite HL. simpl.
    rewrite (get_property_two_levels _ _ _ _ k HL Hp Htop Hend). simpl.
    destruct (o_props reg !! k) as [p|] eqn:Hk.
    + pose proof (Hreg p eq_refl) as Hw.
      case_bool_decide as Hd; [simpl in Hd; congruence|eauto].
    + rewrite Hext. destruct (o_props top !! k) as [p|] eqn:Htk.
      * pose proof (Htopw p eq_refl) as Hw.
        case_bool_decide as Hd; [simpl in Hd; congruence|eauto].
      * case_bool_decide as Hd; [done|eauto].
Qed.

(** C6, as stated, fails on the key "constructor": the registry of the
    freshly loaded module has no such entry, yet reading it yields the
    [Object] function that every ordinary object inherits. *)
Lemma registry_absent_key_inherited :
  get (w_heap (loaded no_modules)) (VObject Template_fn) "libs" = Some (Return (VObject libs))
  ∧ own_property (w_heap (loaded no_modules)) libs "constructor" = None
  ∧ get (w_heap (loaded no_modules)) (VObject libs) "constructor"
    = Some (Return (VObject 3%positive))
  ∧ get (w_heap (loaded no_modules)) (VObject libs) "constructor"
    ≠ Some (Return VUndefined).
Proof. split_and!; [by vm_compute..|]. vm_compute. discriminate. Qed.

(** ** Where the claims as stated fail *)

Lemma starts_with_append sub post : starts_with sub (sub +:+ post) = true.
Proof.
  induction sub as [|a sub IH]; [done|].
  change (bool_decide (a = a) && starts_with sub (sub +:+ post) = true).
  by rewrite bool_decide_eq_true_2, IH.
Qed.

Lemma contains_occurs s sub : contains s sub → occurs sub s = true.
Proof.
  assert (Hstart : ∀ t, starts_with sub t = true → occurs sub t = true).
  { intros t Ht. destruct t; simpl; by rewrite Ht. }
  intros (pre & post & ->). induction pre as [|a pre IH].
  - change ("" +:+ sub +:+ post) with (sub +:+ post). apply Hstart, starts_with_append.
  - change (starts_with sub (String a (pre +:+ sub +:+ post))
            || occurs sub (pre +:+ sub +:+ post) = true).
    rewrite IH. apply orb_true_r.
Qed.

(** C1, as stated, fails for an engine derived by
    [MyProcessor.prototype = Object.create(Template.prototype)]: the
    instance that [new MyProcessor] makes inherits the base [evaluate],
    the constructing type is named "MyProcessor", and the message is
    "Template#evaluate() is not implemented.", in which "MyProcessor"
    does not occur. *)
Lemma evaluate_names_inherited_constructor :
  get (w_heap careless_types) (VObject engine_fn) "name"
  = Some (Return (VString "MyProcessor"))
  ∧ construct (VObject engine_fn) [VString "a.tpl"; VString "hello"] careless_types
    = Some (Return (VObject engine_instance), careless_world)
  ∧ inherits_base_evaluate (w_heap careless_world) engine_instance
  ∧ call_method (VObject engine_instance) "evaluate" [VNull; VNull] careless_world
    = Some (Throw (Error "Template#evaluate() is not implemented."), careless_world)
  ∧ ¬ contains "Template#evaluate() is not implemented." "MyProcessor".
Proof.
  split_and!; [by vm_compute..| |by vm_compute|].
  - exists (VObject 9%positive). split; by vm_compute.
  - intros H. apply contains_occurs in H. vm_compute in H. discriminate.
Qed.


(** ** The theorems at concrete runs *)

(** [is_constructor] by evaluation. *)
Lemma is_constructor_check (h : gmap positive object) f c p :
  (o ← h !! f; q ← o_props o !! "prototype"; Some (o_call o, p_value q))
  = Some (Some c, VObject p) →
  is_constructor h f c p.
Proof.
  destruct (h !! f) as [o|] eqn:Ho; [|done]. simpl.
  destruct (o_props o !! "prototype") as [q|] eqn:Hq; [|done]. simpl.
  intros [= Hc Hp]. by exists o, q.
Qed.

Lemma evaluate_names_prototype_constructor_witness :
  ∃ l w1,
    construct (VObject engine_fn) [VString "a.tpl"; VString "hello"] careless_types
    = Some (Return (VObject l), w1)
    ∧ call_method (VObject l) "evaluate" [VNull; VNull] w1
      = Some (Throw (Error "Template#evaluate() is not implemented."), w1)
    ∧ ∀ v w', call_method (VObject l) "evaluate" [VNull; VNull] w1 ≠ Some (Return v, w').
Proof.
  apply (evaluate_names_prototype_constructor careless_types engine_fn CApplyTemplate
           16%positive Template_fn "Template" [VString "a.tpl"; VString "hello"]
           [VNull; VNull]).
  - apply is_constructor_check. vm_compute; reflexivity.
  - right; reflexivity.
  - exists (VObject 9%positive). split; vm_compute; reflexivity.
  - vm_compute; reflexivity.
  - vm_compute; reflexivity.
Defined.

Lemma evaluate_anonymous_witness :
  to_boolean (VString "") = false
  ∧ call_method (VObject engine_instance) "evaluate" [VNull; VNull] (engine_world "")
    = Some (Throw (Error "#evaluate() is not implemented."), engine_world "").
Proof.
  split; [reflexivity|].
  apply (evaluate_anonymous (engine_world "") engine_instance (VObject engine_fn) (VString "")
           [VNull; VNull]).
  - exists (VObject 9%positive). split; vm_compute; reflexivity.
  - vm_compute; reflexivity.
  - vm_compute; reflexivity.
  - reflexivity.
Defined.

Lemma construct_reads_back_witness :
  ∃ l w',
    construct (VObject Template_fn) [VString "a.tpl"; VString "hello"] (loaded no_modules)
    = Some (Return (VObject l), w')
    ∧ own_property (w_heap w') l "file" = Some (Property (VString "a.tpl") false false false)
    ∧ own_property (w_heap w') l "data" = Some (Property (VString "hello") true false false)
    ∧ get (w_heap w') (VObject l) "file" = Some (Return (VString "a.tpl"))
    ∧ get (w_heap w') (VObject l) "data" = Some (Return (VString "hello")).
Proof.
  apply (construct_reads_back (loaded no_modules) Template_fn 8%positive
           (VString "a.tpl") (VString "hello")).
  apply is_constructor_check. vm_compute; reflexivity.
Defined.

Lemma require_missing_witness :
  require (VObject engine_instance) [VString "definitely-not-installed"]
          (engine_world "MyProcessor")
  = Some (Throw (Error (missing_message "definitely-not-installed" "a.tpl")),
          engine_world "MyProcessor")
  ∧ contains (missing_message "definitely-not-installed" "a.tpl") "definitely-not-installed"
  ∧ contains (missing_message "definitely-not-installed" "a.tpl") "a.tpl".
Proof.
  apply (require_missing (engine_world "MyProcessor") (VObject engine_instance)
           "definitely-not-installed" (VString "a.tpl") "a.tpl").
  - vm_compute; reflexivity.
  - vm_compute; reflexivity.
  - vm_compute; reflexivity.
  - reflexivity.
Defined.

Lemma require_replaces_error_witness :
  native_require (VString "broken") (engine_world "MyProcessor")
  = Some (Throw (Raised (VString "boom")), engine_world "MyProcessor")
  ∧ require (VObject engine_instance) [VString "broken"] (engine_world "MyProcessor")
    = Some (Throw (Error "Cannot find module `broken` required for file 'a.tpl'"),
            engine_world "MyProcessor").
Proof.
  assert (H : native_require (VString "broken") (engine_world "MyProcessor")
              = Some (Throw (Raised (VString "boom")), engine_world "MyProcessor"))
    by (vm_compute; reflexivity).
  split; [exact H|].
  apply (require_replaces_error (engine_world "MyProcessor") engine_instance "broken"
           (Raised (VString "boom")) (engine_world "MyProcessor") (VString "a.tpl") "a.tpl").
  - split_and!; vm_compute; reflexivity.
  - reflexivity.
  - exact H.
Defined.

Lemma require_idempotent_witness :
  let w' := after (native_require (VString "ejs")) (loaded installed) in
  require VUndefined [VString "ejs"] (loaded installed) = Some (Return (VObject 14%positive), w')
  ∧ require VUndefined [VString "ejs"] w' = Some (Return (VObject 14%positive), w').
Proof.
  apply (require_idempotent (loaded installed) VUndefined "ejs" (VObject 14%positive)).
  vm_compute; reflexivity.
Defined.

Lemma file_never_changes_witness :
  own_property (w_heap (engine_world "MyProcessor")) engine_instance "file"
  = Some (Property (VString "a.tpl") false false false)
  ∧ put_m (VObject engine_instance) "file" (VString "b.tpl") (engine_world "MyProcessor")
    = Some (Throw TypeError, engine_world "MyProcessor").
Proof.
  assert (H : own_property (w_heap (engine_world "MyProcessor")) engine_instance "file"
              = Some (Property (VString "a.tpl") false false false))
    by (vm_compute; reflexivity).
  split; [exact H|].
  apply (file_never_changes (engine_world "MyProcessor") engine_instance (VString "a.tpl") H).
Defined.

Lemma instances_do_not_interfere_witness :
  ∃ l1 w1 l2 w2,
    construct (VObject Template_fn) [VString "a.tpl"; VString "hello"] (loaded no_modules)
    = Some (Return (VObject l1), w1)
    ∧ construct (VObject Template_fn) [VString "b.tpl"; VString "world"] w1
      = Some (Return (VObject l2), w2)
    ∧ l1 ≠ l2
    ∧ (∃ w3, put_m (VObject l1) "data" (VString "HELLO") w2 = Some (Return (), w3)
             ∧ get (w_heap w3) (VObject l1) "data" = Some (Return (VString "HELLO"))
             ∧ get (w_heap w3) (VObject l2) "data" = Some (Return (VString "world"))
             ∧ get (w_heap w3) (VObject l2) "file" = Some (Return (VString "b.tpl")))
    ∧ (∃ w3, put_m (VObject l2) "data" (VString "HELLO") w2 = Some (Return (), w3)
             ∧ get (w_heap w3) (VObject l2) "data" = Some (Return (VString "HELLO"))
             ∧ get (w_heap w3) (VObject l1) "data" = Some (Return (VString "hello"))
             ∧ get (w_heap w3) (VObject l1) "file" = Some (Return (VString "a.tpl"))).
Proof.
  apply (instances_do_not_interfere (loaded no_modules) Template_fn 8%positive
           (VString "a.tpl") (VString "hello") (VString "b.tpl") (VString "world")
           (VString "HELLO")).
  apply is_constructor_check. vm_compute; reflexivity.
Defined.

Lemma registry_lookup_witness :
  get (w_heap (loaded no_modules)) (VObject libs) "foo" = Some (Return VUndefined)
  ∧ get (w_heap (loaded no_modules)) (VObject libs) magic_key
    = Some (Return (VObject object_prototype))
  ∧ ∃ h', put (w_heap (loaded no_modules)) libs "foo" (VString "bar") = Some (true, h')
          ∧ get h' (VObject libs) "foo" = Some (Return (VString "bar")).
Proof.
  destruct (registry_lookup (w_heap (loaded no_modules)) libs
              (plain_object (Some object_prototype))
              (default (plain_object None) (runtime_heap !! object_prototype)))
    as (_ & Habsent & Hmagic & _ & Hset & Hok).
  - vm_compute; reflexivity.
  - reflexivity.
  - vm_compute; reflexivity.
  - reflexivity.
  - split_and!.
    + apply Habsent; [done|vm_compute; reflexivity..].
    + apply Hmagic; vm_compute; reflexivity.
    + destruct (Hok "foo" (VString "bar")) as [h' Hput]; [done|reflexivity|done|..].
      * intros p. vm_compute. discriminate.
      * exists h'. split; [exact Hput|]. by apply Hset.
Defined.

(** The call reaches the engine's own [evaluate] when there is one:
    the base only answers for the types that left it out. *)
Example overriding_engine_evaluates :
  fst <$> (C ← overriding_engine "Upper" (VObject Template_fn);
           i ← construct C [VString "a.tpl"; VString "world"];
           call_method i "evaluate" [VNull; VNull]) (loaded no_modules)
  = Some (Return (VString "world")).
Proof. by vm_compute. Qed.

(** * More of template.js *)

(** ** The constructor on other receivers and arguments *)

(** X1. [new] on [Template], or on an engine whose constructor hands
    its arguments over to [Template], makes a new object under the
    constructor's prototype that holds the first argument as [file]
    and the second as [data]: a missing argument is stored as
    [undefined], further arguments are dropped. *)
Theorem construct_stores_arguments w f c P args :
  is_constructor (w_heap w) f c P → c = CTemplate ∨ c = CApplyTemplate →
  ∃ l w',
    construct (VObject f) args w = Some (Return (VObject l), w')
    ∧ w_heap w !! l = None
    ∧ w_heap w' !! l = Some (instance P (nth 0 args VUndefined) (nth 1 args VUndefined))
    ∧ get (w_heap w') (VObject l) "file" = Some (Return (nth 0 args VUndefined))
    ∧ get (w_heap w') (VObject l) "data" = Some (Return (nth 1 args VUndefined)).
Proof.
  intros Hf Hc. eexists _, _. split; [by apply (construct_instance _ _ _ _ args Hf)|].
  split; [apply fresh_loc_None|]. cbn [w_heap with_heap]. split; [apply lookup_insert_eq|].
  split.
  - apply (get_own _ _ _ (Property (nth 0 args VUndefined) false false false)); [done|].
    by rewrite own_property_insert, instance_file.
  - apply (get_own _ _ _ (Property (nth 1 args VUndefined) true false false)); [done|].
    by rewrite own_property_insert, instance_data.
Qed.

Lemma construct_stores_arguments_witness :
  ∃ l w',
    construct (VObject engine_fn) [VString "b.tpl"] (engine_world "MyProcessor")
    = Some (Return (VObject l), w')
    ∧ w_heap (engine_world "MyProcessor") !! l = None
    ∧ w_heap w' !! l = Some (instance 16%positive (VString "b.tpl") VUndefined)
    ∧ get (w_heap w') (VObject l) "file" = Some (Return (VString "b.tpl"))
    ∧ get (w_heap w') (VObject l) "data" = Some (Return VUndefined).
Proof.
  apply (construct_stores_arguments (engine_world "MyProcessor") engine_fn CApplyTemplate
           16%positive [VString "b.tpl"]).
  - apply is_constructor_check. vm_compute; reflexivity.
  - right; reflexivity.
Defined.

Lemma run_bind_throw {A B} (m : M A) (f : A → M B) w e w' :
  m w = Some (Throw e, w') → (m ≫= f) w = Some (Throw e, w').
Proof. intros H. unfold mbind, M_bind, bind. by rewrite H. Qed.








(** ** evaluate on other receivers *)

(** X4. The base [evaluate] needs a receiver that tells its type:
    called detached ([this] is [undefined] or [null]), or on an object
    that has no [constructor], it throws a TypeError instead of the
    not-implemented Error, and changes nothing. *)
Theorem evaluate_without_type w this args :
  this = VUndefined ∨ this = VNull
  ∨ get (w_heap w) this "constructor" = Some (Return VUndefined)
  ∨ get (w_heap w) this "constructor" = Some (Return VNull) →
  evaluate this args w = Some (Throw TypeError, w).
Proof.
  unfold evaluate. intros [->| [->| [H|H]]].
  - by apply run_bind_throw.
  - by apply run_bind_throw.
  - erewrite run_bind; last by (unfold get_m; rewrite H). by apply run_bind_throw.
  - erewrite run_bind; last by (unfold get_m; rewrite H). by apply run_bind_throw.
Qed.

Lemma evaluate_without_type_witness :
  get (w_heap bare_world) (VObject bare_object) "constructor" = Some (Return VUndefined)
  ∧ evaluate (VObject bare_object) [VNull; VNull] bare_world
    = Some (Throw TypeError, bare_world).
Proof.
  assert (H : get (w_heap bare_world) (VObject bare_object) "constructor"
              = Some (Return VUndefined)) by (vm_compute; reflexivity).
  split; [exact H|].
  apply (evaluate_without_type bare_world (VObject bare_object) [VNull; VNull]).
  right; right; left. exact H.
Defined.

(** X5. [new] and then [evaluate]: for a type whose constructor is
    [Template] or hands over to it, whose prototype points back to it
    through [constructor] and inherits the base [evaluate], every new
    instance answers [evaluate] with the Error that names the type. *)
Theorem new_then_evaluate w f c p n args args' :
  is_constructor (w_heap w) f c p → c = CTemplate ∨ c = CApplyTemplate →
  get (w_heap w) (VObject p) "constructor" = Some (Return (VObject f)) →
  get (w_heap w) (VObject f) "name" = Some (Return (VString n)) →
  (∃ e, get (w_heap w) (VObject p) "evaluate" = Some (Return e)
        ∧ code_of (w_heap w) e = Some CEvaluate) →
  ∃ l w1,
    construct (VObject f) args w = Some (Return (VObject l), w1)
    ∧ call_method (VObject l) "evaluate" args' w1
      = Some (Throw (Error (n +:+ "#evaluate() is not implemented.")), w1).
Proof. apply construct_not_implemented. Qed.

Lemma new_then_evaluate_witness :
  ∃ l w1,
    construct (VObject engine_fn) [VString "b.tpl"; VString "bye"] (engine_world "MyProcessor")
    = Some (Return (VObject l), w1)
    ∧ call_method (VObject l) "evaluate" [] w1
      = Some (Throw (Error "MyProcessor#evaluate() is not implemented."), w1).
Proof.
  apply (new_then_evaluate (engine_world "MyProcessor") engine_fn CApplyTemplate 16%positive
           "MyProcessor" [VString "b.tpl"; VString "bye"] []).
  - apply is_constructor_check. vm_compute; reflexivity.
  - right; reflexivity.
  - vm_compute; reflexivity.
  - vm_compute; reflexivity.
  - exists (VObject 9%positive). split; vm_compute; reflexivity.
Defined.

(** X6. In the module as template.js leaves it, an instance of
    [Template] itself answers [evaluate] with "Template#evaluate() is
    not implemented.", and an engine made the way the example at the
    head of the file makes it (lines 12-13), under any name, with the
    Error that carries that name. *)
Theorem loaded_types_not_implemented modules name args args' :
  (∃ l w1,
     construct (VObject Template_fn) args (loaded modules) = Some (Return (VObject l), w1)
     ∧ call_method (VObject l) "evaluate" args' w1
       = Some (Throw (Error "Template#evaluate() is not implemented."), w1))
  ∧ (∃ C w1 l w2,
       engine name (VObject Template_fn) (loaded modules) = Some (Return (VObject C), w1)
       ∧ construct (VObject C) args w1 = Some (Return (VObject l), w2)
       ∧ call_method (VObject l) "evaluate" args' w2
         = Some (Throw (Error (name +:+ "#evaluate() is not implemented.")), w2)).
Proof.
  split.
  - apply (construct_not_implemented (loaded modules) Template_fn CTemplate 8%positive
             "Template" args args').
    + apply loaded_Template.
    + by left.
    + by vm_compute.
    + by vm_compute.
    + exists (VObject 9%positive). split; by vm_compute.
  - set (w1 := after (engine name (VObject Template_fn)) (loaded modules)).
    destruct (construct_not_implemented w1 engine_fn CApplyTemplate 16%positive name
                args args') as (l & w2 & Hnew & Hev).
    + apply is_constructor_check. by vm_compute.
    + by right.
    + by vm_compute.
    + by vm_compute.
    + exists (VObject 9%positive). split; by vm_compute.
    + exists engine_fn, w1, l, w2. split_and!; [by vm_compute|done..].
Qed.

(** ** require on other names and receivers *)

(** X7. A name that is no string never reaches a module: for
    [require()] and for a [null] or boolean name the loader refuses,
    and [require] throws the missing-module Error with the name
    printed as JavaScript prints it ("undefined" for a missing
    argument); the world is as before. *)
Theorem require_without_name w this args s file f :
  (∀ n, arg 0 args ≠ VString n) → to_string (arg 0 args) = Some s →
  get (w_heap w) this "file" = Some (Return file) → to_string file = Some f →
  require this args w = Some (Throw (Error (missing_message s f)), w).
Proof.
  intros Hname Hs Hfile Hf. unfold require, try_catch.
  assert (native_require (arg 0 args) w = Some (Throw TypeError, w)) as ->.
  { destruct (arg 0 args) as [| | |n|]; try done. by destruct (Hname n). }
  erewrite run_bind; last by (unfold to_string_m; rewrite Hs).
  erewrite run_bind; last by (unfold get_m; rewrite Hfile).
  erewrite run_bind; last by (unfold to_string_m; rewrite Hf).
  done.
Qed.

Lemma require_without_name_witness :
  require (VObject engine_instance) [] (engine_world "MyProcessor")
  = Some (Throw (Error "Cannot find module `undefined` required for file 'a.tpl'"),
          engine_world "MyProcessor").
Proof.
  apply (require_without_name (engine_world "MyProcessor") (VObject engine_instance) []
           "undefined" (VString "a.tpl") "a.tpl").
  - intros n; discriminate.
  - reflexivity.
  - vm_compute; reflexivity.
  - reflexivity.
Defined.

(** X8. The rescue reads [this.file]: when the loader throws and
    [require] was called detached ([this] is [undefined] or [null]),
    what comes out is a TypeError, not the missing-module Error. *)
Theorem require_detached w this name s err w' :
  this = VUndefined ∨ this = VNull →
  to_string name = Some s →
  native_require name w = Some (Throw err, w') →
  require this [name] w = Some (Throw TypeError, w').
Proof.
  intros Hthis Hs Hload. unfold require, try_catch.
  change (arg 0 [name]) with name. rewrite Hload.
  erewrite run_bind; last by (unfold to_string_m; rewrite Hs).
  apply run_bind_throw. by destruct Hthis as [-> | ->].
Qed.

Lemma require_detached_witness :
  require VUndefined [VString "stylus"] (loaded installed)
  = Some (Throw TypeError, loaded installed).
Proof.
  apply (require_detached (loaded installed) VUndefined (VString "stylus") "stylus"
           (Error "Cannot find module 'stylus'")).
  - left; reflexivity.
  - reflexivity.
  - vm_compute; reflexivity.
Defined.

(** ** The module and the engines made from it *)

(** X10. [libs] is a property of the [Template] function alone.  An
    engine derived as in the example at the head of the file does not
    inherit it, and neither do instances: [Engine.libs] and
    [instance.libs] read [undefined], and the engine reaches the
    registry as [Engine.super_.libs]. *)
Theorem registry_only_on_Template modules name args :
  ∃ C w1 l w2,
    engine name (VObject Template_fn) (loaded modules) = Some (Return (VObject C), w1)
    ∧ construct (VObject C) args w1 = Some (Return (VObject l), w2)
    ∧ get (w_heap w2) (VObject Template_fn) "libs" = Some (Return (VObject libs))
    ∧ get (w_heap w2) (VObject C) "libs" = Some (Return VUndefined)
    ∧ get (w_heap w2) (VObject l) "libs" = Some (Return VUndefined)
    ∧ get (w_heap w2) (VObject C) "super_" = Some (Return (VObject Template_fn)).
Proof.
  set (w1 := after (engine name (VObject Template_fn)) (loaded modules)).
  set (w2 := after (construct (VObject engine_fn) args) w1).
  exists engine_fn, w1, engine_instance, w2. split_and!; by vm_compute.
Qed.

(** X11. [evaluate] is looked up on the instance at the call: an
    engine that puts its own [evaluate] on its prototype (lines 16-19
    of the example) has that code run, with the instance as [this] and
    the caller's arguments, while an instance of [Template] itself
    made afterwards still gets the not-implemented Error. *)
Theorem own_evaluate_is_called modules name body args args' :
  ∃ C w1 l w2 b w3,
    engine_with_evaluate name body (VObject Template_fn) (loaded modules)
    = Some (Return (VObject C), w1)
    ∧ construct (VObject C) args w1 = Some (Return (VObject l), w2)
    ∧ call_method (VObject l) "evaluate" args' w2 = foreign_m (body (VObject l) args') w2
    ∧ construct (VObject Template_fn) args w2 = Some (Return (VObject b), w3)
    ∧ call_method (VObject b) "evaluate" args' w3
      = Some (Throw (Error "Template#evaluate() is not implemented."), w3).
Proof.
  set (w1 := after (engine_with_evaluate name body (VObject Template_fn)) (loaded modules)).
  set (w2 := after (construct (VObject engine_fn) args) w1).
  set (w3 := after (construct (VObject Template_fn) args) w2).
  exists engine_fn, w1, 19%positive, w2, 20%positive, w3. split_and!; by vm_compute.
Qed.

(** [require] returns only what the loader returned. *)
Lemma require_returns this args w m w1 :
  require this args w = Some (Return m, w1) →
  native_require (arg 0 args) w = Some (Return m, w1).
Proof.
  unfold require, try_catch.
  destruct (native_require (arg 0 args) w) as [[[m0|err] w0]|]; [by intros; simplify_eq| |done].
  intros H.
  do 3 (apply run_bind_inv in H as [(? & ? & _ & H)|(? & _ & ?)]; [|done]).
  unfold throw in H. by simplify_eq.
Qed.

(** X12. The registration that the comment on [Template.libs] shows
    (line 86), [registry[name] = require(name)]: once the assignment
    has taken effect, the entry reads as the module that [require]
    returned, and a later [require(name)], from any receiver, returns
    that same reference and leaves the entry alone. *)
Theorem registered_module_is_the_required_one w this this' n m w1 L h2 :
  require this [VString n] w = Some (Return m, w1) →
  put (w_heap w1) L n m = Some (true, h2) →
  get h2 (VObject L) n = Some (Return m)
  ∧ require this' [VString n] (with_heap w1 h2) = Some (Return m, with_heap w1 h2).
Proof.
  intros Hreq Hput. split; [by apply (put_then_get _ _ _ _ _ Hput)|].
  apply require_returns in Hreq. change (arg 0 [VString n]) with (VString n) in Hreq.
  unfold require, try_catch. change (arg 0 [VString n]) with (VString n).
  rewrite (native_require_hit (with_heap w1 h2) n m); [done|].
  apply (native_require_cached _ _ _ _ Hreq).
Qed.

Lemma registered_module_is_the_required_one_witness :
  let w1 := after (require VUndefined [VString "ejs"]) (loaded installed) in
  let h2 := default ∅ (snd <$> put (w_heap w1) libs "ejs" (VObject 14%positive)) in
  get h2 (VObject libs) "ejs" = Some (Return (VObject 14%positive))
  ∧ require (VObject Template_fn) [VString "ejs"] (with_heap w1 h2)
    = Some (Return (VObject 14%positive), with_heap w1 h2).
Proof.
  apply (registered_module_is_the_required_one (loaded installed) VUndefined
           (VObject Template_fn) "ejs" (VObject 14%positive)).
  - vm_compute; reflexivity.
  - vm_compute; reflexivity.
Defined.
